(** * The [util] facade of the b4w engine (src/b4w/ext/util.js)

    The module re-exports the orientation helpers of the internal module
    [__util], allocating default output buffers and guarding the plane
    projection.  The development is layered as follows:

    - [Num], [JS]: JavaScript numbers (IEEE 754 binary64), [Float32Array]
      buffers in a heap, and the state monad the code runs in;
    - [Facade]: the functions written in util.js, over an arbitrary
      implementation of the modules it requires;
    - [Internal]: the required modules, which are not part of util.js,
      following their description: the destination-buffer convention
      around numerical kernels that stay abstract;
    - [Loaded]: both modules loaded on an empty heap, to run the functions
      on concrete buffers. *)

From Stdlib Require Import ZArith List String Bool Lia.
From Stdlib Require Import Floats.SpecFloat.
From stdpp Require Import base list strings.

(** ** JavaScript numbers *)

Module Num.

(** A JavaScript Number is an IEEE 754 binary64 value. *)
Definition number : Type := spec_float.

Definition prec : Z := 53.
Definition emax : Z := 1024.

Definition add : number -> number -> number := SFadd prec emax.
Definition sub : number -> number -> number := SFsub prec emax.
Definition mul : number -> number -> number := SFmul prec emax.
Definition neg : number -> number := SFopp.

Definition of_Z (z : Z) : number := binary_normalize prec emax z 0 false.

Definition zero : number := S754_zero false.
Definition one : number := Eval vm_compute in of_Z 1.
Definition minus_one : number := Eval vm_compute in of_Z (-1).
Definition NaN : number := S754_nan.

(** [x != y], [x > y] and [x < y] on two numbers. *)
Definition neq (x y : number) : bool := negb (SFeqb x y).
Definition gt (x y : number) : bool := SFltb y x.
Definition lt (x y : number) : bool := SFltb x y.

(** The canonical binary64 representation of a finite value. *)
Definition to_f64 (x : number) : number :=
  match x with
  | S754_finite s m e => binary_round prec emax s m e
  | _ => x
  end.

(** [Math.fround]: the conversion a [Float32Array] applies on a store,
    round to nearest binary32, ties to even. *)
Definition fround (x : number) : number :=
  match x with
  | S754_finite s m e => to_f64 (binary_round 24 128 s m e)
  | _ => x
  end.

Definition is_zero (x : number) : bool :=
  match x with S754_zero _ => true | _ => false end.

End Num.

Import Num.

(** ** Values, heap and effects *)

Module JS.

Definition loc : Type := nat.

(** The values an optional buffer argument or a result can take. *)
Inductive value : Type :=
| Undefined
| Null
| Ref (l : loc).

#[global] Instance value_eq_dec : EqDecision value.
Proof. solve_decision. Defined.

(** [ToBoolean]: what [!v] tests. *)
Definition to_boolean (v : value) : bool :=
  match v with
  | Ref _ => true
  | Undefined | Null => false
  end.

(** The heap holds the typed arrays; the log is what [m_print.error]
    has reported. *)
Record state : Type := State {
  heap : list (list number);
  log : list string
}.

Definition M (A : Type) : Type := state -> A * state.

#[global] Instance M_ret : MRet M := fun A a s => (a, s).

#[global] Instance M_bind : MBind M :=
  fun A B k m s => let (a, s') := m s in k a s'.

Definition exec {A} (m : M A) (s : state) : state := snd (m s).
Definition eval {A} (m : M A) (s : state) : A := fst (m s).

(** [new Float32Array(xs)]: every element is rounded to binary32. *)
Definition Float32Array_from (xs : list number) : M loc :=
  fun s => (length (heap s),
            {| heap := heap s ++ [map fround xs]; log := log s |}).

(** [new Float32Array(n)]: [n] zeros. *)
Definition Float32Array_new (n : nat) : M loc :=
  Float32Array_from (replicate n zero).

(** The elements of the buffer at [l]; a dangling reference has none. *)
Definition elements (l : loc) (s : state) : list number :=
  default [] (heap s !! l).

(** [a[i]] used as a number: [undefined] out of range, hence [NaN]. *)
Definition get (xs : list number) (i : nat) : number := nth i xs NaN.

(** [for each i: a[i] = xs[i]]: stores are rounded, and a store past
    the end of a typed array is ignored. *)
Fixpoint store_all (old xs : list number) : list number :=
  match old, xs with
  | _ :: old', x :: xs' => fround x :: store_all old' xs'
  | _, _ => old
  end.

Definition set_elements (l : loc) (xs : list number) : M unit :=
  fun s => (tt, {| heap := alter (fun old => store_all old xs) l (heap s);
                   log := log s |}).

(** [m_print.error(msg)] of the logging module: the message is
    appended to the log. *)
Definition m_print_error (msg : string) : M unit :=
  fun s => (tt, {| heap := heap s; log := log s ++ [msg] |}).

End JS.

Import JS.

(** ** The facade *)

Module Facade.

(** The values a function that util.js re-exports as it is can be
    called with, and can answer: numbers, booleans, strings, objects of
    the engine, and what a buffer parameter can hold. *)
Inductive jsval : Type :=
| JNumber (x : number)
| JBoolean (b : bool)
| JString (s : string)
| JObject (o : nat)
| JValue (v : value).

(** The functions of [__util] that util.js exports under their own
    name without a wrapper, other than [sign], [quat_to_dir] and
    [correct_cam_quat_up], which have their own entry in [imports]. *)
Inductive reexport : Type :=
| keyfind
| keysearch
| clamp
| hash_code
| smooth
| smooth_v
| is_vector
| quat_to_angle_axis
| random_from_array
| xz_direction
| line_plane_intersect
| is_mesh
| is_armature
| angle_wrap_0_2pi
| angle_wrap_periodic
| smooth_step.

(** What util.js requires from the modules [__util] and [vec3]: the
    three axis constants of [__util] it passes on, and the functions it
    calls.  A buffer parameter the source documents as a
    [Float32Array] is a location; an optional destination is a
    [value]. *)
Record imports : Type := Imports {
  m_vec3_dot : loc -> loc -> state -> number;
  util_AXIS_MY : loc;
  util_AXIS_Y : loc;
  util_AXIS_MZ : loc;
  util_matrix_to_quat : loc -> M value;
  util_euler_to_quat : loc -> value -> M value;
  util_quat_to_euler : loc -> value -> M value;
  util_quat_project : loc -> loc -> loc -> loc -> value -> M value;
  util_cam_quat_to_mesh_quat : loc -> value -> M value;
  util_quat_to_dir : loc -> loc -> value -> M value;
  util_correct_cam_quat_up : loc -> bool -> M value;
  util_sign : number -> number;
  util_reexport : reexport -> list jsval -> M jsval
}.

(** The six exported axis constants, lines 19 to 44. *)
Record axes : Type := Axes {
  AXIS_X : loc;
  AXIS_Y : loc;
  AXIS_Z : loc;
  AXIS_MX : loc;
  AXIS_MY : loc;
  AXIS_MZ : loc
}.

Definition X_value : list number := [one; zero; zero].
Definition Y_value : list number := [zero; one; zero].
Definition Z_value : list number := [zero; zero; one].
Definition MX_value : list number := [minus_one; zero; zero].
Definition MY_value : list number := [zero; minus_one; zero].
Definition MZ_value : list number := [zero; zero; minus_one].

Definition load_axes : M axes :=
  x ← Float32Array_from X_value;
  y ← Float32Array_from Y_value;
  z ← Float32Array_from Z_value;
  mx ← Float32Array_from MX_value;
  my ← Float32Array_from MY_value;
  mz ← Float32Array_from MZ_value;
  mret {| AXIS_X := x; AXIS_Y := y; AXIS_Z := z;
         AXIS_MX := mx; AXIS_MY := my; AXIS_MZ := mz |}.

Section Functions.

Variable I : imports.

Definition matrix_to_quat (matrix : loc) : M value :=
  util_matrix_to_quat I matrix.

Definition euler_to_quat (euler : loc) (quat : value) : M value :=
  quat ← (if negb (to_boolean quat)
           then l ← Float32Array_new 4; mret (Ref l)
           else mret quat);
  util_euler_to_quat I euler quat.

Definition quat_to_euler (quat : loc) (euler : value) : M value :=
  euler ← (if negb (to_boolean euler)
            then l ← Float32Array_new 3; mret (Ref l)
            else mret euler);
  util_quat_to_euler I quat euler.

Definition sign : number -> number := util_sign I.

Definition quat_to_dir : loc -> loc -> value -> M value :=
  util_quat_to_dir I.

Definition ground_project_quat (quat : loc) (dest : value) : M value :=
  util_quat_project I quat (util_AXIS_MY I) (util_AXIS_Y I)
    (util_AXIS_MZ I) dest.

Definition cam_quat_to_mesh_quat (cam_quat : loc) (dest : value)
  : M value :=
  util_cam_quat_to_mesh_quat I cam_quat dest.

Definition quat_project (quat quat_ident_dir plane plane_ident_dir : loc)
    (dest : value) : M value :=
  fun s =>
    if neq (m_vec3_dot I plane plane_ident_dir s) zero
    then (m_print_error "Wrong in-plane direction";; mret Null) s
    else util_quat_project I quat quat_ident_dir
           plane plane_ident_dir dest s.

Definition correct_cam_quat_up : loc -> bool -> M value :=
  util_correct_cam_quat_up I.

(** A function re-exported as it is: [exports.f = util.f]. *)
Definition reexported (f : reexport) (args : list jsval) : M jsval :=
  util_reexport I f args.

(** A call of one of the exported functions. *)
Inductive call : Type :=
| Cmatrix_to_quat (matrix : loc)
| Ceuler_to_quat (euler : loc) (quat : value)
| Cquat_to_euler (quat : loc) (euler : value)
| Cquat_to_dir (quat ident : loc) (dest : value)
| Cground_project_quat (quat : loc) (dest : value)
| Ccam_quat_to_mesh_quat (cam_quat : loc) (dest : value)
| Cquat_project (quat quat_ident_dir plane plane_ident_dir : loc)
    (dest : value)
| Ccorrect_cam_quat_up (quat : loc) (up_only : bool)
| Csign (value : number)
| Creexport (f : reexport) (args : list jsval).

(** The answer of a wrapper as a [jsval]. *)
Definition answer (m : M value) : M jsval :=
  fun s => let (v, s') := m s in (JValue v, s').

Definition perform (c : call) : M jsval :=
  match c with
  | Cmatrix_to_quat m => answer (matrix_to_quat m)
  | Ceuler_to_quat e q => answer (euler_to_quat e q)
  | Cquat_to_euler q e => answer (quat_to_euler q e)
  | Cquat_to_dir q i d => answer (quat_to_dir q i d)
  | Cground_project_quat q d => answer (ground_project_quat q d)
  | Ccam_quat_to_mesh_quat q d => answer (cam_quat_to_mesh_quat q d)
  | Cquat_project q qi p pi d => answer (quat_project q qi p pi d)
  | Ccorrect_cam_quat_up q b => answer (correct_cam_quat_up q b)
  | Csign x => mret (JNumber (sign x))
  | Creexport f args => reexported f args
  end.

(** A sequence of calls, each on the state the previous one left. *)
Fixpoint run (cs : list call) (s : state) : state :=
  match cs with
  | [] => s
  | c :: cs' => run cs' (exec (perform c) s)
  end.

End Functions.




(** The buffer held by an optional destination, and by an argument. *)
Definition dest_of (d : value) : list loc :=
  match d with
  | Ref l => [l]
  | Undefined | Null => []
  end.

Definition buffer_of (v : jsval) : list loc :=
  match v with
  | JValue d => dest_of d
  | JNumber _ | JBoolean _ | JString _ | JObject _ => []
  end.

(** The buffers a re-exported function is handed to write.  util.js
    documents a destination for [smooth_v], its fifth parameter, and
    only numbers or a checked object, with a number or boolean result,
    for [clamp], [smooth], [is_vector], [is_mesh], [is_armature],
    [angle_wrap_0_2pi] and [angle_wrap_periodic]; it documents nothing
    for the others, of which any buffer argument counts as handed
    over. *)
Definition handed_args (f : reexport) (args : list jsval) : list loc :=
  match f with
  | smooth_v => buffer_of (nth 4 args (JValue Undefined))
  | clamp | smooth | is_vector | is_mesh | is_armature
  | angle_wrap_0_2pi | angle_wrap_periodic => []
  | keyfind | keysearch | hash_code | quat_to_angle_axis
  | random_from_array | xz_direction | line_plane_intersect
  | smooth_step => concat (map buffer_of args)
  end.

(** The buffers a call hands over to be written: its destination
    argument, or the quaternion corrected in place. *)
Definition handed (c : call) : list loc :=
  match c with
  | Cmatrix_to_quat _ | Csign _ => []
  | Ceuler_to_quat _ d | Cquat_to_euler _ d | Cquat_to_dir _ _ d
  | Cground_project_quat _ d | Ccam_quat_to_mesh_quat _ d
  | Cquat_project _ _ _ _ d => dest_of d
  | Ccorrect_cam_quat_up q _ => [q]
  | Creexport f args => handed_args f args
  end.

Definition axes_locs (e : axes) : list loc :=
  [AXIS_X e; AXIS_Y e; AXIS_Z e; AXIS_MX e; AXIS_MY e; AXIS_MZ e].

(** The six constants hold the values they were created with. *)
Definition axes_intact (e : axes) (s : state) : Prop :=
  heap s !! AXIS_X e = Some X_value /\
  heap s !! AXIS_Y e = Some Y_value /\
  heap s !! AXIS_Z e = Some Z_value /\
  heap s !! AXIS_MX e = Some MX_value /\
  heap s !! AXIS_MY e = Some MY_value /\
  heap s !! AXIS_MZ e = Some MZ_value.


(** [m] leaves every allocated buffer the caller can see, other than
    those of [dests], as it was. *)
Definition preserves_except {A} (visible : loc -> Prop) (dests : list loc)
    (m : M A) : Prop :=
  forall s l, visible l -> l < length (heap s) -> l ∉ dests ->
    heap (exec m s) !! l = heap s !! l.

(** The required functions write nothing but the buffers they are
    handed and buffers of their own, which the caller cannot see. *)
Record frame_contract (visible : loc -> Prop) (I : imports) : Prop
  := FrameContract {
  fc_matrix_to_quat :
    forall m, preserves_except visible [] (util_matrix_to_quat I m);
  fc_euler_to_quat :
    forall e d,
      preserves_except visible (dest_of d) (util_euler_to_quat I e d);
  fc_quat_to_euler :
    forall q d,
      preserves_except visible (dest_of d) (util_quat_to_euler I q d);
  fc_quat_project :
    forall q qi p pi d,
      preserves_except visible (dest_of d)
        (util_quat_project I q qi p pi d);
  fc_cam_quat_to_mesh_quat :
    forall q d,
      preserves_except visible (dest_of d)
        (util_cam_quat_to_mesh_quat I q d);
  fc_quat_to_dir :
    forall q i d,
      preserves_except visible (dest_of d) (util_quat_to_dir I q i d);
  fc_correct_cam_quat_up :
    forall q b,
      preserves_except visible [q] (util_correct_cam_quat_up I q b);
  fc_reexport :
    forall f args,
      preserves_except visible (handed_args f args)
        (util_reexport I f args)
}.

(** [I] with another function in the place of [util.quat_project]. *)
Definition with_quat_project (I : imports)
    (p : loc -> loc -> loc -> loc -> value -> M value) : imports := {|
  m_vec3_dot := m_vec3_dot I;
  util_AXIS_MY := util_AXIS_MY I;
  util_AXIS_Y := util_AXIS_Y I;
  util_AXIS_MZ := util_AXIS_MZ I;
  util_matrix_to_quat := util_matrix_to_quat I;
  util_euler_to_quat := util_euler_to_quat I;
  util_quat_to_euler := util_quat_to_euler I;
  util_quat_project := p;
  util_cam_quat_to_mesh_quat := util_cam_quat_to_mesh_quat I;
  util_quat_to_dir := util_quat_to_dir I;
  util_correct_cam_quat_up := util_correct_cam_quat_up I;
  util_sign := util_sign I;
  util_reexport := util_reexport I
|}.

(** The state after [m_print.error] has reported [msg]. *)
Definition reported (msg : string) (s : state) : state :=
  {| heap := heap s; log := log s ++ [msg] |}.

End Facade.

(** ** The required modules *)

Module Internal.

Import Facade.

Local Infix "⊕" := add (at level 50, left associativity).
Local Infix "⊖" := sub (at level 50, left associativity).
Local Infix "⊗" := mul (at level 40, left associativity).

(** Modelled from the spec: [m_vec3.dot] of the module [vec3], which is
    not part of util.js; the dot product of two 3-vectors,
    [a[0]*b[0] + a[1]*b[1] + a[2]*b[2]]. *)
Definition vec3_dot (a b : list number) : number :=
  get a 0 ⊗ get b 0 ⊕ get a 1 ⊗ get b 1 ⊕ get a 2 ⊗ get b 2.

(** Modelled from the spec: the rotation [util.quat_to_dir] applies,
    "rotates a reference identity direction vector by the quaternion":
    the product [q * (v, 0) * conj q] of a quaternion (x, y, z, w). *)
Definition rotate (q v : list number) : list number :=
  let x := get v 0 in let y := get v 1 in let z := get v 2 in
  let qx := get q 0 in let qy := get q 1 in
  let qz := get q 2 in let qw := get q 3 in
  let ix := qw ⊗ x ⊕ qy ⊗ z ⊖ qz ⊗ y in
  let iy := qw ⊗ y ⊕ qz ⊗ x ⊖ qx ⊗ z in
  let iz := qw ⊗ z ⊕ qx ⊗ y ⊖ qy ⊗ x in
  let iw := neg qx ⊗ x ⊖ qy ⊗ y ⊖ qz ⊗ z in
  [ ix ⊗ qw ⊕ iw ⊗ neg qx ⊕ iy ⊗ neg qz ⊖ iz ⊗ neg qy;
    iy ⊗ qw ⊕ iw ⊗ neg qy ⊕ iz ⊗ neg qx ⊖ ix ⊗ neg qz;
    iz ⊗ qw ⊕ iw ⊗ neg qz ⊕ ix ⊗ neg qy ⊖ iy ⊗ neg qx ].

(** Modelled from the spec: [util.sign], "sign classification; exact
    zero maps to 0", documented in util.js as "-1,0,1 for negative, zero
    or positive number accordingly". *)
Definition util_sign (value : number) : number :=
  if gt value zero then one
  else if lt value zero then minus_one
  else zero.

(** The numerical kernels of [__util] whose formulas neither util.js
    nor the spec gives: each maps the elements of its input buffers to
    the elements of the result. *)
Record kernels : Type := Kernels {
  matrix_to_quat_of : list number -> list number;
  euler_to_quat_of : list number -> list number;
  quat_to_euler_of : list number -> list number;
  quat_project_of :
    list number -> list number -> list number -> list number -> list number;
  cam_quat_to_mesh_quat_of : list number -> list number;
  correct_cam_quat_up_of : list number -> bool -> list number;
  reexport_answer_of :
    reexport -> list jsval -> list (list number) -> jsval;
  reexport_store_of :
    reexport -> list jsval -> list (list number) -> list number
}.

(** Modelled from the spec: the output-buffer convention of [__util],
    "every conversion accepts an optional pre-allocated destination;
    when absent, a fresh buffer is allocated and returned".  The result
    [xs] goes to [dest] when one is supplied and to a new buffer of [n]
    elements otherwise; the buffer written is returned. *)
Definition into (dest : value) (n : nat) (xs : list number) : M value :=
  match dest with
  | Ref l => set_elements l xs;; mret (Ref l)
  | Undefined | Null =>
      l ← Float32Array_new n; set_elements l xs;; mret (Ref l)
  end.

(** The same elements stored into each of the buffers [ls]. *)
Definition store_each (ls : list loc) (xs : list number) (s : state)
  : state :=
  foldr (fun l s' => exec (set_elements l xs) s') s ls.

(** The axis constants of [__util] that util.js passes to the
    projection. *)
Record util_axes : Type := UtilAxes {
  U_AXIS_MY : loc;
  U_AXIS_Y : loc;
  U_AXIS_MZ : loc
}.

(** Modelled from the spec: the values of [util.AXIS_MY], [util.AXIS_Y]
    and [util.AXIS_MZ], "quat_ident_dir = -Y, plane_normal = +Y,
    plane_ident_dir = -Z". *)
Definition U_MY_value : list number := [zero; minus_one; zero].
Definition U_Y_value : list number := [zero; one; zero].
Definition U_MZ_value : list number := [zero; zero; minus_one].

Definition load_util_axes : M util_axes :=
  my ← Float32Array_from U_MY_value;
  y ← Float32Array_from U_Y_value;
  mz ← Float32Array_from U_MZ_value;
  mret {| U_AXIS_MY := my; U_AXIS_Y := y; U_AXIS_MZ := mz |}.

Section Model.

Variable K : kernels.
Variable U : util_axes.

(** Modelled from the spec: the functions of [__util] behind the
    facade.  Each reads its input buffers, computes with its kernel
    and hands the result to [into]; [correct_cam_quat_up] "mutates
    the input in place". *)
Definition util_matrix_to_quat (matrix : loc) : M value :=
  fun s => into Undefined 4 (matrix_to_quat_of K (elements matrix s)) s.

Definition util_euler_to_quat (euler : loc) (quat : value) : M value :=
  fun s => into quat 4 (euler_to_quat_of K (elements euler s)) s.

Definition util_quat_to_euler (quat : loc) (euler : value) : M value :=
  fun s => into euler 3 (quat_to_euler_of K (elements quat s)) s.

Definition util_quat_project
    (quat quat_ident_dir plane plane_ident_dir : loc) (dest : value)
  : M value :=
  fun s =>
    into dest 4
      (quat_project_of K (elements quat s) (elements quat_ident_dir s)
         (elements plane s) (elements plane_ident_dir s)) s.

Definition util_cam_quat_to_mesh_quat (cam_quat : loc) (dest : value)
  : M value :=
  fun s => into dest 4 (cam_quat_to_mesh_quat_of K (elements cam_quat s)) s.

Definition util_quat_to_dir (quat ident : loc) (dest : value) : M value :=
  fun s => into dest 3 (rotate (elements quat s) (elements ident s)) s.

Definition util_correct_cam_quat_up (quat : loc) (up_only : bool)
  : M value :=
  fun s =>
    (set_elements quat (correct_cam_quat_up_of K (elements quat s) up_only);;
     mret Undefined) s.

Definition m_vec3_dot (a b : loc) (s : state) : number :=
  vec3_dot (elements a s) (elements b s).

(** Modelled from the spec: the functions util.js re-exports as they
    are, "pure (or explicitly-marked in-place)" helpers.  Each computes
    its answer, and the elements it stores, from its arguments and the
    contents of the buffers among them, and stores into the buffers it is
    handed. *)
Definition util_reexport (f : reexport) (args : list jsval) : M jsval :=
  fun s =>
    let inputs := map (fun l => elements l s) (concat (map buffer_of args)) in
    (reexport_answer_of K f args inputs,
     store_each (handed_args f args) (reexport_store_of K f args inputs) s).

Definition the_imports : imports := {|
  Facade.m_vec3_dot := m_vec3_dot;
  util_AXIS_MY := U_AXIS_MY U;
  util_AXIS_Y := U_AXIS_Y U;
  util_AXIS_MZ := U_AXIS_MZ U;
  Facade.util_matrix_to_quat := util_matrix_to_quat;
  Facade.util_euler_to_quat := util_euler_to_quat;
  Facade.util_quat_to_euler := util_quat_to_euler;
  Facade.util_quat_project := util_quat_project;
  Facade.util_cam_quat_to_mesh_quat := util_cam_quat_to_mesh_quat;
  Facade.util_quat_to_dir := util_quat_to_dir;
  Facade.util_correct_cam_quat_up := util_correct_cam_quat_up;
  Facade.util_sign := util_sign;
  Facade.util_reexport := util_reexport
|}.

End Model.

(** Kernels that answer the identity rotation whatever the input: they
    stand for the unknown formulas when the model is run on a concrete
    heap. *)
Definition identity_kernels : kernels := {|
  matrix_to_quat_of := fun _ => [zero; zero; zero; one];
  euler_to_quat_of := fun _ => [zero; zero; zero; one];
  quat_to_euler_of := fun _ => [zero; zero; zero];
  quat_project_of := fun _ _ _ _ => [zero; zero; zero; one];
  cam_quat_to_mesh_quat_of := fun q => q;
  correct_cam_quat_up_of := fun q _ => q;
  reexport_answer_of := fun _ _ _ => JValue Undefined;
  reexport_store_of := fun _ _ _ => [zero; zero; zero]
|}.

(** The constants of [__util] hold the values they were created
    with. *)
Definition util_axes_intact (U : util_axes) (s : state) : Prop :=
  heap s !! U_AXIS_MY U = Some U_MY_value /\
  heap s !! U_AXIS_Y U = Some U_Y_value /\
  heap s !! U_AXIS_MZ U = Some U_MZ_value.

End Internal.

(** ** The modules loaded on an empty heap *)

Module Loaded.

Import Facade Internal.

(** Loading [__util] and then util.js on an empty heap. *)
Definition empty : state := {| heap := []; log := [] |}.

Definition boot : M (util_axes * axes) :=
  u ← load_util_axes;
  e ← load_axes;
  mret (u, e).

Definition boot_state : state := exec boot empty.
Definition boot_util_axes : util_axes := fst (eval boot empty).
Definition boot_axes : axes := snd (eval boot empty).

(** The required modules as loaded above, with the identity kernels. *)
Definition boot_imports : imports :=
  the_imports identity_kernels boot_util_axes.

(** A caller that has allocated the identity quaternion (0, 0, 0, 1). *)
Definition caller_quat : loc :=
  eval (Float32Array_from [zero; zero; zero; one]) boot_state.
Definition caller_state : state :=
  exec (Float32Array_from [zero; zero; zero; one]) boot_state.

End Loaded.

(** * Properties *)

Import Facade Loaded.

(** ** Numbers and buffers *)

Lemma neq_zero (d : number) : neq d zero = negb (is_zero d).
Proof. destruct d as [[]|[]| |[] m e]; reflexivity. Qed.

Lemma is_zero_spec (d : number) :
  is_zero d = true <-> d = S754_zero false \/ d = S754_zero true.
Proof.
  destruct d as [[]|[]| |[] m e]; simpl; split; intros H;
    try discriminate; try (destruct H; discriminate); auto.
Qed.

Lemma not_zero_spec (d : number) :
  is_zero d = false <-> d <> S754_zero false /\ d <> S754_zero true.
Proof.
  destruct d as [[]|[]| |[] m e]; simpl; split; intros H;
    try discriminate; try (split; discriminate); try reflexivity;
    destruct H as [H1 H2]; try (now elim H1); now elim H2.
Qed.

Lemma length_store_all (old xs : list number) :
  length (store_all old xs) = length old.
Proof.
  revert xs; induction old as [|o old IH]; intros [|x xs]; simpl; auto.
Qed.

(** ** The guard of [quat_project] *)

Section Guard.

Variable I : imports.
Variables quat quat_ident_dir plane plane_ident_dir : loc.
Variable dest : value.

Lemma quat_project_unfold (s : state) :
  quat_project I quat quat_ident_dir plane plane_ident_dir dest s
  = if is_zero (m_vec3_dot I plane plane_ident_dir s)
    then util_quat_project I quat quat_ident_dir plane plane_ident_dir dest s
    else (Null, reported "Wrong in-plane direction" s).
Proof.
  unfold quat_project. rewrite neq_zero.
  now destruct (is_zero (m_vec3_dot I plane plane_ident_dir s)).
Qed.

(** C1: [quat_project] returns the null sentinel exactly when the dot
    product of [plane] and [plane_ident_dir] is not a zero (a strict
    comparison, so NaN fails it too); it then reports "Wrong in-plane
    direction" and changes nothing else; when the dot product is zero the
    outcome is the one of the internal projection, which is assumed not
    to answer null itself. *)
Theorem quat_project_null_iff_dot_nonzero (s : state)
    (Hinternal :
       eval (util_quat_project I quat quat_ident_dir plane plane_ident_dir
               dest) s <> Null) :
  let d := m_vec3_dot I plane plane_ident_dir s in
  let r := quat_project I quat quat_ident_dir plane plane_ident_dir dest s in
  (fst r = Null <-> neq d zero = true) /\
  (fst r = Null <-> d <> S754_zero false /\ d <> S754_zero true) /\
  r = (if is_zero d
       then util_quat_project I quat quat_ident_dir plane plane_ident_dir
              dest s
       else (Null,
             {| heap := heap s;
                log := log s ++ ["Wrong in-plane direction"] |})).
Proof.
  intros d r. subst r. rewrite quat_project_unfold. fold d.
  rewrite neq_zero, <- not_zero_spec. unfold eval in Hinternal.
  destruct (is_zero d); simpl; repeat split; intros; try easy.
Qed.

(** C5: when the dot product is not zero the outcome is the same
    whatever function stands for the internal projection, so it is not
    invoked; the heap, and with it any supplied destination, is left as it
    was, and only the log grows. *)
Theorem quat_project_fails_fast (s : state)
    (Hdot : is_zero (m_vec3_dot I plane plane_ident_dir s) = false) :
  (forall p,
     quat_project (with_quat_project I p)
       quat quat_ident_dir plane plane_ident_dir dest s
     = (Null, reported "Wrong in-plane direction" s)) /\
  quat_project I quat quat_ident_dir plane plane_ident_dir dest s
  = (Null, reported "Wrong in-plane direction" s) /\
  heap (exec (quat_project I quat quat_ident_dir plane plane_ident_dir dest) s)
  = heap s /\
  (forall l, dest = Ref l ->
     elements l
       (exec (quat_project I quat quat_ident_dir plane plane_ident_dir dest) s)
     = elements l s).
Proof.
  assert (Hq : quat_project I quat quat_ident_dir plane plane_ident_dir dest s
               = (Null, reported "Wrong in-plane direction" s))
    by (rewrite quat_project_unfold; now rewrite Hdot).
  split; [|split; [exact Hq|]].
  - intros p. unfold quat_project. rewrite neq_zero. simpl. now rewrite Hdot.
  - unfold exec, elements. rewrite Hq. simpl. auto.
Qed.

End Guard.

(** ** Frames: which buffers a call can change *)

Lemma exec_answer (m : M value) (s : state) :
  exec (answer m) s = exec m s.
Proof. unfold exec, answer. now destruct (m s). Qed.

Lemma preserves_except_answer (visible : loc -> Prop) (dests : list loc)
    (m : M value) :
  preserves_except visible dests m ->
  preserves_except visible dests (answer m).
Proof. intros Hm s l Hv Hl Hd. rewrite exec_answer. now apply Hm. Qed.

Lemma not_elem_of_dest_of (l : loc) (d : value) :
  l ∉ dest_of d <-> Ref l <> d.
Proof.
  destruct d as [| |l']; simpl.
  - split; [discriminate|intros _; apply not_elem_of_nil].
  - split; [discriminate|intros _; apply not_elem_of_nil].
  - rewrite list_elem_of_singleton. split; intros H; congruence.
Qed.

Lemma preserves_except_alloc (visible : loc -> Prop) (n : nat)
    (dest : value) (k : value -> M value) :
  to_boolean dest = false ->
  (forall d, preserves_except visible (dest_of d) (k d)) ->
  preserves_except visible (dest_of dest)
    (l ← Float32Array_new n; k (Ref l)).
Proof.
  intros _ Hk s l Hv Hl _. unfold exec, mbind, M_bind. simpl.
  specialize (Hk (Ref (length (heap s)))
                {| heap := heap s ++ [map fround (replicate n zero)];
                   log := log s |} l).
  unfold exec in Hk. rewrite Hk.
  - simpl. now rewrite lookup_app_l.
  - exact Hv.
  - simpl. rewrite length_app. lia.
  - simpl. rewrite list_elem_of_singleton. lia.
Qed.

Section Frames.

Variable visible : loc -> Prop.
Variable I : imports.
Hypothesis HI : frame_contract visible I.

Lemma euler_to_quat_frame (euler : loc) (quat : value) :
  preserves_except visible (dest_of quat) (euler_to_quat I euler quat).
Proof.
  destruct quat as [| |l].
  - apply (preserves_except_alloc visible 4 Undefined
             (fun d => util_euler_to_quat I euler d)); [easy|].
    intros d. apply (fc_euler_to_quat visible I HI).
  - apply (preserves_except_alloc visible 4 Null
             (fun d => util_euler_to_quat I euler d)); [easy|].
    intros d. apply (fc_euler_to_quat visible I HI).
  - apply (fc_euler_to_quat visible I HI).
Qed.

Lemma quat_to_euler_frame (quat : loc) (euler : value) :
  preserves_except visible (dest_of euler) (quat_to_euler I quat euler).
Proof.
  destruct euler as [| |l].
  - apply (preserves_except_alloc visible 3 Undefined
             (fun d => util_quat_to_euler I quat d)); [easy|].
    intros d. apply (fc_quat_to_euler visible I HI).
  - apply (preserves_except_alloc visible 3 Null
             (fun d => util_quat_to_euler I quat d)); [easy|].
    intros d. apply (fc_quat_to_euler visible I HI).
  - apply (fc_quat_to_euler visible I HI).
Qed.

Lemma quat_project_frame (q qi p pi : loc) (dest : value) :
  preserves_except visible (dest_of dest) (quat_project I q qi p pi dest).
Proof.
  intros s l Hv Hl Hne. unfold exec. rewrite quat_project_unfold.
  destruct (is_zero (m_vec3_dot I p pi s)); [|reflexivity].
  now apply (fc_quat_project visible I HI).
Qed.

(** Every call leaves the buffers it was not handed as they were. *)
Lemma perform_frame (c : call) :
  preserves_except visible (handed c) (perform I c).
Proof.
  destruct c; simpl; try apply preserves_except_answer.
  - apply (fc_matrix_to_quat visible I HI).
  - apply euler_to_quat_frame.
  - apply quat_to_euler_frame.
  - apply (fc_quat_to_dir visible I HI).
  - apply (fc_quat_project visible I HI).
  - apply (fc_cam_quat_to_mesh_quat visible I HI).
  - apply quat_project_frame.
  - apply (fc_correct_cam_quat_up visible I HI).
  - intros s l _ _ _. reflexivity.
  - apply (fc_reexport visible I HI).
Qed.



End Frames.

Lemma fround_axis_values :
  map fround X_value = X_value /\ map fround Y_value = Y_value /\
  map fround Z_value = Z_value /\ map fround MX_value = MX_value /\
  map fround MY_value = MY_value /\ map fround MZ_value = MZ_value.
Proof. vm_compute. repeat split. Qed.

Lemma load_axes_eval (s : state) :
  let n := length (heap s) in
  eval load_axes s
  = {| AXIS_X := n; AXIS_Y := n + 1; AXIS_Z := n + 2;
       AXIS_MX := n + 3; AXIS_MY := n + 4; AXIS_MZ := n + 5 |}.
Proof.
  unfold eval, load_axes, mbind, M_bind, mret, M_ret, Float32Array_from.
  simpl. rewrite !length_app. simpl. f_equal; lia.
Qed.

Lemma load_axes_exec (s : state) :
  exec load_axes s
  = {| heap := heap s ++
         [X_value; Y_value; Z_value; MX_value; MY_value; MZ_value];
       log := log s |}.
Proof.
  destruct fround_axis_values as (HX & HY & HZ & HMX & HMY & HMZ).
  unfold exec, load_axes, mbind, M_bind, mret, M_ret, Float32Array_from.
  cbn -[X_value Y_value Z_value MX_value MY_value MZ_value map].
  rewrite HX, HY, HZ, HMX, HMY, HMZ.
  now rewrite <- !app_assoc.
Qed.


(** ** The destination convention of the required modules *)

Lemma fround_replicate_zero (n : nat) :
  map fround (replicate n zero) = replicate n zero.
Proof. induction n as [|n IH]; simpl; [reflexivity|now rewrite IH]. Qed.

Lemma into_Ref (l : loc) (n : nat) (xs : list number) (s : state) :
  Internal.into (Ref l) n xs s = (Ref l, exec (set_elements l xs) s).
Proof. reflexivity. Qed.

Lemma into_absent (dest : value) (n : nat) (xs : list number) (s : state) :
  to_boolean dest = false ->
  Internal.into dest n xs s
  = (Ref (length (heap s)),
     {| heap := heap s ++ [store_all (replicate n zero) xs];
        log := log s |}).
Proof.
  intros Hd.
  assert (Hgoal :
    (l ← Float32Array_new n; set_elements l xs;; mret (Ref l)) s
    = (Ref (length (heap s)),
       {| heap := heap s ++ [store_all (replicate n zero) xs];
          log := log s |})).
  { unfold mbind, M_bind, mret, M_ret, Float32Array_new, Float32Array_from,
      set_elements.
    cbn [heap log]. rewrite fround_replicate_zero.
    pose proof (alter_app_r (fun old => store_all old xs) (heap s)
                  [replicate n zero] 0) as Halter.
    rewrite Nat.add_0_r in Halter.
    apply (f_equal (fun h => (Ref (length (heap s)),
                              {| heap := h; log := log s |}))).
    exact Halter. }
  destruct dest; [exact Hgoal|exact Hgoal|discriminate].
Qed.

Lemma into_frame (visible : loc -> Prop) (dest : value) (n : nat)
    (f : state -> list number) :
  preserves_except visible (dest_of dest)
    (fun s => Internal.into dest n (f s) s).
Proof.
  intros s l _ Hl Hne. unfold exec.
  destruct dest as [| |l'].
  - rewrite into_absent by reflexivity. simpl. now rewrite lookup_app_l.
  - rewrite into_absent by reflexivity. simpl. now rewrite lookup_app_l.
  - rewrite into_Ref. simpl. apply list_lookup_alter_ne.
    apply not_elem_of_dest_of in Hne. congruence.
Qed.

Lemma store_each_other (ls : list loc) (xs : list number) (s : state)
    (l : loc) :
  l ∉ ls -> heap (Internal.store_each ls xs s) !! l = heap s !! l.
Proof.
  induction ls as [|l' ls IH]; intros Hl; simpl; [reflexivity|].
  apply not_elem_of_cons in Hl as [Hne Hl].
  rewrite list_lookup_alter_ne by congruence. now apply IH.
Qed.

Lemma store_each_log (ls : list loc) (xs : list number) (s : state) :
  log (Internal.store_each ls xs s) = log s.
Proof. induction ls as [|l' ls IH]; simpl; [reflexivity|exact IH]. Qed.

Lemma into_not_null (dest : value) (n : nat) (xs : list number) (s : state) :
  fst (Internal.into dest n xs s) <> Null.
Proof.
  destruct dest; [rewrite into_absent by reflexivity|
                  rewrite into_absent by reflexivity|rewrite into_Ref];
    discriminate.
Qed.

Lemma into_log (dest : value) (n : nat) (xs : list number) (s : state) :
  log (snd (Internal.into dest n xs s)) = log s.
Proof.
  destruct dest; [rewrite into_absent by reflexivity|
                  rewrite into_absent by reflexivity|rewrite into_Ref];
    reflexivity.
Qed.

(** The functions of [__util] as modelled write nothing but the buffer
    they are handed. *)
Lemma the_imports_frame (visible : loc -> Prop)
    (K : Internal.kernels) (U : Internal.util_axes) :
  frame_contract visible (Internal.the_imports K U).
Proof.
  constructor; simpl; intros.
  - apply (into_frame visible Undefined 4
             (fun s => Internal.matrix_to_quat_of K (elements m s))).
  - apply (into_frame visible d 4
             (fun s => Internal.euler_to_quat_of K (elements e s))).
  - apply (into_frame visible d 3
             (fun s => Internal.quat_to_euler_of K (elements q s))).
  - apply (into_frame visible d 4
             (fun s => Internal.quat_project_of K (elements q s)
                         (elements qi s) (elements p s) (elements pi s))).
  - apply (into_frame visible d 4
             (fun s => Internal.cam_quat_to_mesh_quat_of K (elements q s))).
  - apply (into_frame visible d 3
             (fun s => Internal.rotate (elements q s) (elements i s))).
  - intros s l _ Hl Hne. unfold exec, Internal.util_correct_cam_quat_up.
    simpl. apply list_lookup_alter_ne.
    rewrite list_elem_of_singleton in Hne. congruence.
  - intros s l _ Hl Hne. unfold exec, Internal.util_reexport.
    cbn [snd]. now apply store_each_other.
Qed.

Lemma elements_lookup (l : loc) (s : state) (xs : list number) :
  heap s !! l = Some xs -> elements l s = xs.
Proof. intros H; unfold elements; now rewrite H. Qed.

Lemma euler_to_quat_supplied (I : imports) (euler l : loc) (s : state) :
  euler_to_quat I euler (Ref l) s = util_euler_to_quat I euler (Ref l) s.
Proof. reflexivity. Qed.

Lemma euler_to_quat_absent (I : imports) (euler : loc) (quat : value)
    (s : state) :
  to_boolean quat = false ->
  euler_to_quat I euler quat s
  = util_euler_to_quat I euler (Ref (length (heap s)))
      (exec (Float32Array_new 4) s).
Proof. now destruct quat. Qed.

Lemma quat_to_euler_supplied (I : imports) (quat l : loc) (s : state) :
  quat_to_euler I quat (Ref l) s = util_quat_to_euler I quat (Ref l) s.
Proof. reflexivity. Qed.

Lemma quat_to_euler_absent (I : imports) (quat : loc) (euler : value)
    (s : state) :
  to_boolean euler = false ->
  quat_to_euler I quat euler s
  = util_quat_to_euler I quat (Ref (length (heap s)))
      (exec (Float32Array_new 3) s).
Proof. now destruct euler. Qed.

Lemma store_all_fresh (n : nat) (xs : list number) (s : state) :
  heap (exec (set_elements (length (heap s)) xs)
          (exec (Float32Array_new n) s))
  = heap s ++ [store_all (replicate n zero) xs].
Proof.
  unfold exec, set_elements, Float32Array_new, Float32Array_from.
  cbn [snd heap log]. rewrite fround_replicate_zero.
  pose proof (alter_app_r (fun old => store_all old xs) (heap s)
                [replicate n zero] 0) as Halter.
  rewrite Nat.add_0_r in Halter. exact Halter.
Qed.

(** ** The projection onto the ground plane *)

Lemma dot_Y_MZ :
  Internal.vec3_dot Y_value MZ_value = zero.
Proof. vm_compute. reflexivity. Qed.

(** C2: while the axis constants of both modules hold their values,
    [ground_project_quat(quat, dest)] has the outcome of
    [quat_project(quat, AXIS_MY, AXIS_Y, AXIS_MZ, dest)], the projection
    with quat_ident_dir = -Y, plane normal = +Y and plane_ident_dir = -Z
    written to the destination. *)
Theorem ground_project_quat_is_quat_project
    (K : Internal.kernels) (U : Internal.util_axes) (e : axes)
    (quat : loc) (dest : value) (s : state)
    (HU : Internal.util_axes_intact U s) (He : axes_intact e s) :
  let I := Internal.the_imports K U in
  ground_project_quat I quat dest s
  = quat_project I quat (AXIS_MY e) (AXIS_Y e) (AXIS_MZ e) dest s /\
  ground_project_quat I quat dest s
  = Internal.into dest 4
      (Internal.quat_project_of K (elements quat s)
         MY_value Y_value MZ_value) s.
Proof.
  destruct HU as (HUMY & HUY & HUMZ).
  destruct He as (_ & HY & _ & _ & HMY & HMZ).
  apply elements_lookup in HUMY, HUY, HUMZ, HY, HMY, HMZ.
  intros I.
  assert (Hg : ground_project_quat I quat dest s
               = Internal.into dest 4
                   (Internal.quat_project_of K (elements quat s)
                      MY_value Y_value MZ_value) s).
  { unfold ground_project_quat. simpl.
    unfold Internal.util_quat_project. now rewrite HUMY, HUY, HUMZ. }
  split; [|exact Hg].
  rewrite Hg, quat_project_unfold. simpl.
  unfold Internal.m_vec3_dot. rewrite HY, HMZ, dot_Y_MZ. simpl.
  unfold Internal.util_quat_project. now rewrite HMY, HY, HMZ.
Qed.

(** C3: [ground_project_quat] is the internal projection called on the
    axis constants of [__util], whatever the required modules are; as
    these are modelled it never answers null and leaves the log as it
    was, in every state; and the dot product of +Y and -Z is zero. *)
Theorem ground_project_quat_never_null
    (I : imports) (K : Internal.kernels) (U : Internal.util_axes)
    (quat : loc) (dest : value) (s : state) :
  ground_project_quat I quat dest
  = util_quat_project I quat (util_AXIS_MY I) (util_AXIS_Y I)
      (util_AXIS_MZ I) dest /\
  eval (ground_project_quat (Internal.the_imports K U) quat dest) s <> Null /\
  log (exec (ground_project_quat (Internal.the_imports K U) quat dest) s)
  = log s /\
  neq (Internal.vec3_dot Internal.U_Y_value Internal.U_MZ_value) zero = false.
Proof.
  split; [reflexivity|]. split; [|split].
  - apply into_not_null.
  - apply into_log.
  - vm_compute. reflexivity.
Qed.

(** ** Destination buffers of the conversions *)

(** C4: without a destination, [euler_to_quat] allocates a buffer of 4
    elements and [quat_to_euler] one of 3 elements, at a location that
    did not exist before the call, and hands it to the internal
    conversion; the call returns that buffer.  With a destination, the
    facade allocates nothing: the heap keeps its size, the result is
    written to the supplied buffer and that buffer is returned. *)
Theorem conversions_use_or_allocate_destination
    (J : imports) (K : Internal.kernels) (U : Internal.util_axes)
    (src : loc) (dest : value) (s : state) :
  let I := Internal.the_imports K U in
  let q := euler_to_quat I src dest s in
  let e := quat_to_euler I src dest s in
  let fresh := length (heap s) in
  match dest with
  | Ref l =>
      euler_to_quat J src dest s = util_euler_to_quat J src (Ref l) s /\
      quat_to_euler J src dest s = util_quat_to_euler J src (Ref l) s /\
      fst q = Ref l /\ fst e = Ref l /\
      length (heap (snd q)) = length (heap s) /\
      length (heap (snd e)) = length (heap s) /\
      heap (snd q)
      = alter (fun old =>
                 store_all old (Internal.euler_to_quat_of K (elements src s)))
          l (heap s) /\
      heap (snd e)
      = alter (fun old =>
                 store_all old (Internal.quat_to_euler_of K (elements src s)))
          l (heap s)
  | Undefined | Null =>
      euler_to_quat J src dest s
      = util_euler_to_quat J src (Ref fresh) (exec (Float32Array_new 4) s) /\
      quat_to_euler J src dest s
      = util_quat_to_euler J src (Ref fresh) (exec (Float32Array_new 3) s) /\
      heap s !! fresh = None /\
      heap (exec (Float32Array_new 4) s) !! fresh = Some (replicate 4 zero) /\
      heap (exec (Float32Array_new 3) s) !! fresh = Some (replicate 3 zero) /\
      fst q = Ref fresh /\ fst e = Ref fresh /\
      length (heap (snd q)) = S (length (heap s)) /\
      length (heap (snd e)) = S (length (heap s)) /\
      length <$> heap (snd q) !! fresh = Some 4 /\
      length <$> heap (snd e) !! fresh = Some 3 /\
      (forall l, l < fresh ->
         heap (snd q) !! l = heap s !! l /\ heap (snd e) !! l = heap s !! l)
  end.
Proof.
  intros I q e fresh.
  assert (Hnew : forall n,
            heap (exec (Float32Array_new n) s) !! fresh
            = Some (replicate n zero)).
  { intros n. unfold exec, Float32Array_new, Float32Array_from.
    cbn [snd heap]. rewrite fround_replicate_zero.
    subst fresh. now rewrite lookup_app_r, Nat.sub_diag by lia. }
  assert (Habsent : to_boolean dest = false ->
    heap s !! fresh = None /\
    fst q = Ref fresh /\ fst e = Ref fresh /\
    length (heap (snd q)) = S (length (heap s)) /\
    length (heap (snd e)) = S (length (heap s)) /\
    length <$> heap (snd q) !! fresh = Some 4 /\
    length <$> heap (snd e) !! fresh = Some 3 /\
    (forall l, l < fresh ->
       heap (snd q) !! l = heap s !! l /\ heap (snd e) !! l = heap s !! l)).
  { intros Hd. subst q e.
    rewrite (euler_to_quat_absent I src dest s Hd).
    rewrite (quat_to_euler_absent I src dest s Hd).
    subst I. cbn [util_euler_to_quat util_quat_to_euler Internal.the_imports].
    unfold Internal.util_euler_to_quat, Internal.util_quat_to_euler.
    rewrite !into_Ref. cbn [fst snd].
    subst fresh. rewrite !store_all_fresh.
    split; [apply lookup_ge_None; lia|].
    repeat split; try (rewrite length_app; simpl; lia).
    - rewrite lookup_app_r, Nat.sub_diag by lia.
      cbn [lookup list_lookup fmap option_fmap option_map].
      now rewrite length_store_all, length_replicate.
    - rewrite lookup_app_r, Nat.sub_diag by lia.
      cbn [lookup list_lookup fmap option_fmap option_map].
      now rewrite length_store_all, length_replicate.
    - now rewrite lookup_app_l.
    - now rewrite lookup_app_l. }
  destruct dest as [| |l].
  - destruct Habsent as (H1 & H2 & H3 & H4 & H5 & H6 & H7 & H8);
      [reflexivity|].
    repeat (split; [first [reflexivity | assumption | apply Hnew]|]).
    exact H8.
  - destruct Habsent as (H1 & H2 & H3 & H4 & H5 & H6 & H7 & H8);
      [reflexivity|].
    repeat (split; [first [reflexivity | assumption | apply Hnew]|]).
    exact H8.
  - clear Habsent Hnew. subst q e I.
    split; [reflexivity|]. split; [reflexivity|].
    rewrite euler_to_quat_supplied, quat_to_euler_supplied.
    cbn [util_euler_to_quat util_quat_to_euler Internal.the_imports].
    unfold Internal.util_euler_to_quat, Internal.util_quat_to_euler.
    rewrite !into_Ref. cbn [fst snd]. unfold exec, set_elements.
    cbn [snd heap]. rewrite !length_alter. repeat split; reflexivity.
Qed.

(** ** The axis constants *)



Ltac not_in_list :=
  let H := fresh in
  intros H;
  repeat (apply elem_of_cons in H; destruct H as [H|H]; [discriminate H|]);
  now apply elem_of_nil in H.





(** ** Sign *)

(** C10: [sign] answers 0 for both zeros (and for NaN), 1 for a positive
    and -1 for a negative number, infinities included; the result is one
    of -1, 0 and 1. *)
Theorem sign_classifies
    (K : Internal.kernels) (U : Internal.util_axes) (x : number) :
  let r := sign (Internal.the_imports K U) x in
  match x with
  | S754_zero _ | S754_nan => r = zero
  | S754_infinity negative | S754_finite negative _ _ =>
      r = if negative then minus_one else one
  end /\
  (gt x zero = true <-> r = one) /\
  (lt x zero = true <-> r = minus_one) /\
  (is_zero x = true -> r = zero) /\
  (r = minus_one \/ r = zero \/ r = one).
Proof.
  destruct x as [[]|[]| |[] m e]; cbn; repeat split;
    intros; try discriminate; auto.
Qed.

(** ** Instances on the loaded modules *)

(** Plane normal +Y with in-plane direction +Y: the dot product is 1,
    the projection is refused and the message is logged. *)
Lemma quat_project_rejects_Y_Y :
  quat_project boot_imports caller_quat (AXIS_MY boot_axes)
    (AXIS_Y boot_axes) (AXIS_Y boot_axes) Undefined caller_state
  = (Null,
     {| heap := heap caller_state;
        log := log caller_state ++ ["Wrong in-plane direction"] |}).
Proof.
  destruct (quat_project_null_iff_dot_nonzero boot_imports caller_quat
              (AXIS_MY boot_axes) (AXIS_Y boot_axes) (AXIS_Y boot_axes)
              Undefined caller_state) as (_ & _ & Hr).
  - vm_compute. discriminate.
  - rewrite Hr. vm_compute. reflexivity.
Defined.

(** The same refused call with the caller's quaternion as destination
    leaves the heap as it was. *)
Lemma quat_project_leaves_destination :
  heap (exec (quat_project boot_imports caller_quat (AXIS_MY boot_axes)
                (AXIS_Y boot_axes) (AXIS_Y boot_axes) (Ref caller_quat))
          caller_state)
  = heap caller_state.
Proof.
  refine (proj1 (proj2 (proj2
    (quat_project_fails_fast boot_imports caller_quat
       (AXIS_MY boot_axes) (AXIS_Y boot_axes) (AXIS_Y boot_axes)
       (Ref caller_quat) caller_state _)))).
  vm_compute. reflexivity.
Defined.

(** On the freshly loaded modules the ground projection of the
    identity quaternion is the guarded projection on -Y, +Y, -Z. *)
Lemma ground_project_quat_at_boot :
  ground_project_quat boot_imports caller_quat Undefined caller_state
  = quat_project boot_imports caller_quat (AXIS_MY boot_axes)
      (AXIS_Y boot_axes) (AXIS_MZ boot_axes) Undefined caller_state.
Proof.
  refine (proj1
    (ground_project_quat_is_quat_project Internal.identity_kernels
       boot_util_axes boot_axes caller_quat Undefined
       caller_state _ _)).
  - vm_compute. repeat split.
  - vm_compute. repeat split.
Defined.

(** In-plane directions -Z and +X are accepted for the plane normal +Y,
    and the call answers a new buffer holding the kernel's result. *)
Example quat_project_accepts_MZ_and_X :
  quat_project boot_imports caller_quat (AXIS_MY boot_axes)
    (AXIS_Y boot_axes) (AXIS_MZ boot_axes) Undefined caller_state
  = (Ref 10,
     {| heap := heap caller_state ++ [[zero; zero; zero; one]];
        log := [] |}) /\
  eval (quat_project boot_imports caller_quat (AXIS_MY boot_axes)
          (AXIS_Y boot_axes) (AXIS_X boot_axes) Undefined) caller_state
  = Ref 10.
Proof. split; vm_compute; reflexivity. Qed.

Example sign_of_5_minus_3_and_0 :
  sign boot_imports (of_Z 5) = one /\
  sign boot_imports (of_Z (-3)) = minus_one /\
  sign boot_imports (of_Z 0) = zero /\
  sign boot_imports (S754_zero true) = zero.
Proof. repeat split; vm_compute; reflexivity. Qed.

(** A store into a [Float32Array] rounds: 2^24 + 1 is not a binary32
    value. *)
Example fround_rounds_to_binary32 :
  fround (of_Z 16777217) = of_Z 16777216 /\
  elements 0 (exec (Float32Array_from [of_Z 16777217]) empty)
  = [of_Z 16777216].
Proof. split; vm_compute; reflexivity. Qed.

(** * Sequences of calls on the facade *)

(** ** Definitions *)

Module Calls.

Import Facade.

(** The one message util.js reports. *)
Definition wrong_direction : string := "Wrong in-plane direction".

(** The call is a [quat_project] whose guard fails in [s]. *)
Definition rejected (I : imports) (c : call) (s : state) : bool :=
  match c with
  | Cquat_project _ _ plane plane_ident_dir _ =>
      neq (m_vec3_dot I plane plane_ident_dir s) zero
  | _ => false
  end.

(** How many calls of the sequence are rejected, each in the state the
    calls before it have left. *)
Fixpoint rejections (I : imports) (cs : list call) (s : state) : nat :=
  match cs with
  | [] => 0
  | c :: cs' =>
      (if rejected I c s then 1 else 0)
      + rejections I cs' (exec (perform I c) s)
  end.

Definition is_quat_project (c : call) : bool :=
  match c with
  | Cquat_project _ _ _ _ _ => true
  | _ => false
  end.

(** [m] reports nothing. *)
Definition quiet {A} (m : M A) : Prop :=
  forall s, log (exec m s) = log s.

(** The required functions report nothing themselves. *)
Record quiet_contract (I : imports) : Prop := QuietContract {
  qc_matrix_to_quat : forall m, quiet (util_matrix_to_quat I m);
  qc_euler_to_quat : forall e d, quiet (util_euler_to_quat I e d);
  qc_quat_to_euler : forall q d, quiet (util_quat_to_euler I q d);
  qc_quat_project :
    forall q qi p pi d, quiet (util_quat_project I q qi p pi d);
  qc_cam_quat_to_mesh_quat :
    forall q d, quiet (util_cam_quat_to_mesh_quat I q d);
  qc_quat_to_dir : forall q i d, quiet (util_quat_to_dir I q i d);
  qc_correct_cam_quat_up :
    forall q b, quiet (util_correct_cam_quat_up I q b);
  qc_reexport : forall f args, quiet (util_reexport I f args)
}.

(** The dot product of the two buffers is read off the heap alone. *)
Definition reads_heap_only (I : imports) (a b : loc) : Prop :=
  forall s1 s2, heap s1 = heap s2 -> m_vec3_dot I a b s1 = m_vec3_dot I a b s2.

End Calls.

Import Calls.

(** ** Loading the constants *)

(** X1: creating the six axis constants appends six buffers of three
    elements to the heap, at six different locations none of which was in
    use; the buffers that existed keep their contents and nothing is
    reported. *)
Theorem load_axes_allocates_six_new_buffers (s : state) :
  let e := eval load_axes s in
  let s' := exec load_axes s in
  NoDup (axes_locs e) /\
  (forall l, l ∈ axes_locs e ->
     heap s !! l = None /\ length <$> heap s' !! l = Some 3) /\
  (forall l xs, heap s !! l = Some xs -> heap s' !! l = Some xs) /\
  length (heap s') = length (heap s) + 6 /\
  log s' = log s.
Proof.
  intros e s'. subst e s'. rewrite load_axes_eval, load_axes_exec.
  unfold axes_locs. cbn [AXIS_X AXIS_Y AXIS_Z AXIS_MX AXIS_MY AXIS_MZ heap log].
  set (n := length (heap s)).
  split; [|split; [|split; [|split]]].
  - repeat (apply NoDup_cons; split;
            [rewrite ?not_elem_of_cons; repeat split; try lia;
             apply not_elem_of_nil|]).
    apply NoDup_nil_2.
  - intros l Hl.
    assert (Hcases : l = n \/ l = n + 1 \/ l = n + 2 \/ l = n + 3
                     \/ l = n + 4 \/ l = n + 5).
    { rewrite !elem_of_cons in Hl.
      destruct Hl as [->|[->|[->|[->|[->|[->|Hl]]]]]]; auto 10.
      now apply elem_of_nil in Hl. }
    split; [apply lookup_ge_None; fold n; lia|].
    rewrite lookup_app_r by (fold n; lia). fold n.
    destruct Hcases as [->|[->|[->|[->|[->| ->]]]]].
    + now replace (n - n) with 0 by lia.
    + now replace (n + 1 - n) with 1 by lia.
    + now replace (n + 2 - n) with 2 by lia.
    + now replace (n + 3 - n) with 3 by lia.
    + now replace (n + 4 - n) with 4 by lia.
    + now replace (n + 5 - n) with 5 by lia.
  - intros l xs Hl. rewrite lookup_app_l; [exact Hl|].
    now apply lookup_lt_Some in Hl.
  - rewrite length_app. reflexivity.
  - reflexivity.
Qed.

(** ** Buffers the calls are not handed *)

(** X2: provided the required functions write nothing the caller can see
    but the buffer they are handed, a buffer that no call of a sequence
    is handed to write holds after the sequence what it held before,
    also when calls in between allocate their own destination or are
    refused. *)
Theorem calls_leave_other_buffers
    (visible : loc -> Prop) (I : imports) (cs : list call) (s : state)
    (l : loc) (xs : list number)
    (HI : frame_contract visible I)
    (Hvisible : visible l)
    (Hl : heap s !! l = Some xs)
    (Hcs : Forall (fun c => l ∉ handed c) cs) :
  heap (run I cs s) !! l = Some xs.
Proof.
  revert s Hl. induction Hcs as [|c cs Hc _ IH]; intros s Hl; simpl.
  - exact Hl.
  - apply IH. rewrite (perform_frame visible I HI c s l).
    + exact Hl.
    + exact Hvisible.
    + now apply lookup_lt_Some in Hl.
    + exact Hc.
Qed.

(** Calls that write the caller's quaternion or a buffer of their own,
    among them [smooth_v] reading [AXIS_Z] and [is_vector] checking it,
    leave [AXIS_Z] as it was. *)
Lemma AXIS_Z_kept_by_sample_calls :
  heap (run boot_imports
          [Ceuler_to_quat (AXIS_Z boot_axes) (Ref caller_quat);
           Cquat_to_euler caller_quat Null;
           Cquat_project caller_quat (AXIS_Z boot_axes) (AXIS_Z boot_axes)
             (AXIS_Z boot_axes) (Ref caller_quat);
           Ccam_quat_to_mesh_quat caller_quat Undefined;
           Creexport smooth_v
             [JValue (Ref (AXIS_Z boot_axes)); JValue (Ref caller_quat);
              JNumber one; JNumber one; JValue (Ref caller_quat)];
           Creexport is_vector [JValue (Ref (AXIS_Z boot_axes))];
           Creexport xz_direction
             [JValue (Ref caller_quat); JValue (Ref caller_quat)];
           Csign minus_one]
          caller_state) !! AXIS_Z boot_axes
  = Some Z_value.
Proof.
  refine (calls_leave_other_buffers (fun _ => True) boot_imports _
            caller_state (AXIS_Z boot_axes) Z_value
            (the_imports_frame _ _ _) Logic.I _ _).
  - vm_compute. reflexivity.
  - repeat (apply Forall_cons; split; [vm_compute; not_in_list|]).
    apply Forall_nil_2.
Defined.

(** ** What the facade reports *)

Lemma quiet_alloc (n : nat) (k : value -> M value) :
  (forall d, quiet (k d)) ->
  quiet (l ← Float32Array_new n; k (Ref l)).
Proof.
  intros Hk s. unfold exec, mbind, M_bind. simpl.
  specialize (Hk (Ref (length (heap s)))
                {| heap := heap s ++ [map fround (replicate n zero)];
                   log := log s |}).
  unfold exec in Hk. now rewrite Hk.
Qed.

Section Reports.

Variable I : imports.
Hypothesis HI : quiet_contract I.

Lemma perform_log (c : call) (s : state) :
  log (exec (perform I c) s)
  = log s ++ (if rejected I c s then [wrong_direction] else []).
Proof.
  destruct c as [m|e [| |l]|q [| |l]|q i d|q d|q d|q qi p pi d|q b|x|f args];
    cbn [rejected perform]; rewrite ?exec_answer, ?app_nil_r.
  - apply (qc_matrix_to_quat I HI).
  - apply (quiet_alloc 4 (fun d => util_euler_to_quat I e d)).
    intros d. apply (qc_euler_to_quat I HI).
  - apply (quiet_alloc 4 (fun d => util_euler_to_quat I e d)).
    intros d. apply (qc_euler_to_quat I HI).
  - apply (qc_euler_to_quat I HI).
  - apply (quiet_alloc 3 (fun d => util_quat_to_euler I q d)).
    intros d. apply (qc_quat_to_euler I HI).
  - apply (quiet_alloc 3 (fun d => util_quat_to_euler I q d)).
    intros d. apply (qc_quat_to_euler I HI).
  - apply (qc_quat_to_euler I HI).
  - apply (qc_quat_to_dir I HI).
  - apply (qc_quat_project I HI).
  - apply (qc_cam_quat_to_mesh_quat I HI).
  - unfold exec. rewrite quat_project_unfold, neq_zero.
    destruct (is_zero (m_vec3_dot I p pi s)); simpl.
    + rewrite app_nil_r. apply (qc_quat_project I HI).
    + reflexivity.
  - apply (qc_correct_cam_quat_up I HI).
  - reflexivity.
  - apply (qc_reexport I HI).
Qed.

Lemma rejections_bound (cs : list call) (s : state) :
  rejections I cs s <= length (List.filter is_quat_project cs).
Proof.
  revert s. induction cs as [|c cs IH]; intros s; simpl; [lia|].
  specialize (IH (exec (perform I c) s)).
  destruct c as [m|e d|q d|q i d|q d|q d|q qi p pi d|q b|x|f args];
    cbn [rejected is_quat_project List.filter length] in *; try lia.
  destruct (neq (m_vec3_dot I p pi s) zero); lia.
Qed.

End Reports.

(** X3: provided the required functions report nothing themselves, a
    sequence of calls adds to the log exactly one "Wrong in-plane
    direction" per refused [quat_project] and nothing else: what was
    logged before stays, and there are at most as many new messages as
    the sequence has [quat_project] calls. *)
Theorem calls_report_only_refused_projections
    (I : imports) (cs : list call) (s : state)
    (HI : quiet_contract I) :
  log (run I cs s)
  = log s ++ replicate (rejections I cs s) wrong_direction /\
  rejections I cs s <= length (List.filter is_quat_project cs).
Proof.
  split; [|now apply rejections_bound].
  revert s. induction cs as [|c cs IH]; intros s; simpl.
  - now rewrite app_nil_r.
  - rewrite IH, (perform_log I HI c s), replicate_add, <- app_assoc.
    now destruct (rejected I c s).
Qed.

(** The functions of [__util] as modelled report nothing. *)
Lemma the_imports_quiet (K : Internal.kernels) (U : Internal.util_axes) :
  quiet_contract (Internal.the_imports K U).
Proof.
  constructor; simpl; intros; intros s; unfold exec;
    try apply into_log.
  - reflexivity.
  - apply store_each_log.
Qed.

(** Of three calls the one on plane +Y with direction +Y is refused and
    is the only one reported. *)
Lemma sample_calls_report_once :
  log (run boot_imports
         [Cquat_to_euler caller_quat Undefined;
          Cquat_project caller_quat (AXIS_MY boot_axes) (AXIS_Y boot_axes)
            (AXIS_Y boot_axes) (Ref caller_quat);
          Cquat_project caller_quat (AXIS_MY boot_axes) (AXIS_Y boot_axes)
            (AXIS_MZ boot_axes) (Ref caller_quat)]
         caller_state)
  = ["Wrong in-plane direction"].
Proof.
  pose proof (calls_report_only_refused_projections boot_imports
    [Cquat_to_euler caller_quat Undefined;
     Cquat_project caller_quat (AXIS_MY boot_axes) (AXIS_Y boot_axes)
       (AXIS_Y boot_axes) (Ref caller_quat);
     Cquat_project caller_quat (AXIS_MY boot_axes) (AXIS_Y boot_axes)
       (AXIS_MZ boot_axes) (Ref caller_quat)]
    caller_state (the_imports_quiet _ _)) as [Hlog _].
  rewrite Hlog. vm_compute. reflexivity.
Defined.

(** ** A refused projection, repeated *)

(** X4: when the dot product is read off the heap alone, a refused
    [quat_project] is refused again however often it is repeated: [n]
    such calls in a row leave the heap as it was and add [n] messages to
    the log. *)
Theorem refused_projection_stays_refused
    (I : imports) (quat quat_ident_dir plane plane_ident_dir : loc)
    (dest : value) (n : nat) (s : state)
    (Hreads : reads_heap_only I plane plane_ident_dir)
    (Hdot : is_zero (m_vec3_dot I plane plane_ident_dir s) = false) :
  run I (replicate n
           (Cquat_project quat quat_ident_dir plane plane_ident_dir dest)) s
  = {| heap := heap s; log := log s ++ replicate n wrong_direction |}.
Proof.
  revert s Hdot. induction n as [|n IH]; intros s Hdot;
    cbn [replicate run perform].
  - rewrite app_nil_r. now destruct s.
  - rewrite exec_answer. unfold exec.
    rewrite quat_project_unfold, Hdot. cbn [snd].
    rewrite IH.
    + unfold reported. cbn [heap log]. now rewrite <- app_assoc.
    + rewrite <- Hdot. f_equal. now apply Hreads.
Qed.

(** Three attempts on plane +Y with direction +Y. *)
Lemma three_refused_projections :
  run boot_imports
    (replicate 3
       (Cquat_project caller_quat (AXIS_MY boot_axes) (AXIS_Y boot_axes)
          (AXIS_Y boot_axes) (Ref caller_quat)))
    caller_state
  = {| heap := heap caller_state;
       log := replicate 3 "Wrong in-plane direction" |}.
Proof.
  refine (refused_projection_stays_refused boot_imports caller_quat
            (AXIS_MY boot_axes) (AXIS_Y boot_axes) (AXIS_Y boot_axes)
            (Ref caller_quat) 3 caller_state _ _).
  - intros s1 s2 Hheap. simpl.
    unfold Internal.m_vec3_dot, elements. now rewrite Hheap.
  - vm_compute. reflexivity.
Defined.
